(** * WhisperKit: the C binding around the whisper inference engine

    A shallow embedding of [src/WhisperKit/WhisperKit.c].  The binding is a
    thin layer of C over an external engine ([whisper.h], not part of the
    repository), so the engine is an interface record here and every function
    of the binding is a computation over an explicit world: the engine's
    state, the [malloc] heap, the outcomes of future allocation requests and
    the chronological trace of everything the binding did (engine entry
    points invoked, lines written to [stderr], allocator calls). *)

From Stdlib Require Import ZArith String Ascii DecimalString.
From Stdlib Require QArith_base.
From stdpp Require Import gmap list strings.

Local Open Scope Z_scope.

(** ** C data *)

(** [size_t] on the 64-bit targets the binding is built for; unsigned
    addition wraps around. *)
Definition SIZE_BITS : Z := 64.
Definition SIZE_MOD : Z := 2 ^ SIZE_BITS.
Definition size_add (a b : Z) : Z := (a + b) mod SIZE_MOD.

(** The terminating character ['\0'] and the line feed of the format strings. *)
Definition NUL : ascii := Ascii.zero.
Definition LF : string := String (ascii_of_nat 10) EmptyString.

(** A C string is given by its characters before the terminator, so none of
    them is [NUL]. *)
Fixpoint c_string (s : string) : Prop :=
  match s with
  | EmptyString => True
  | String c s' => c <> NUL /\ c_string s'
  end.

(** [strlen]: the number of characters before the terminator. *)
Definition strlen (s : string) : Z := Z.of_nat (String.length s).

(** [printf]'s [%d] conversion. *)
Definition fmt_d (n : Z) : string := NilZero.string_of_int (Z.to_int n).

(** One byte of allocated memory: [malloc] returns indeterminate bytes, and
    reading one of them is undefined. *)
Inductive memval : Type :=
| Undef
| Byte (c : ascii).

(** A heap block is the array of its bytes. *)
Abbreviation block := (list memval).

Fixpoint bytes_of (s : string) : block :=
  match s with
  | EmptyString => []
  | String c s' => Byte c :: bytes_of s'
  end.

(** [b[i] = v], refused outside the block. *)
Definition store (b : block) (i : nat) (v : memval) : option block :=
  if decide (i < length b)%nat then Some (<[i := v]> b) else None.

(** The offset of the first terminator of a block, as [strlen] and [strcat]
    find it by scanning: [None] when the scan reads an indeterminate byte or
    runs off the block. *)
Fixpoint find_nul (b : block) : option nat :=
  match b with
  | [] => None
  | Undef :: _ => None
  | Byte c :: b' => if decide (c = NUL) then Some O else S <$> find_nul b'
  end.

(** Copies the characters of [s] and a terminator to [b] from offset [pos]
    on, one store each. *)
Fixpoint store_string (b : block) (pos : nat) (s : string) : option block :=
  match s with
  | EmptyString => store b pos (Byte NUL)
  | String c s' =>
      match store b pos (Byte c) with
      | Some b' => store_string b' (S pos) s'
      | None => None
      end
  end.

(** [strcat(dest, src)] on the block of [dest]. *)
Definition strcat_block (dest : block) (src : string) : option block :=
  match find_nul dest with
  | Some pos => store_string dest pos src
  | None => None
  end.

(** The C string held at the start of a block. *)
Fixpoint string_at (b : block) : option string :=
  match b with
  | [] => None
  | Undef :: _ => None
  | Byte c :: b' => if decide (c = NUL) then Some EmptyString else String c <$> string_at b'
  end.

(** ** The engine interface ([whisper.h]) *)

Inductive whisper_sampling_strategy : Type :=
| WHISPER_SAMPLING_GREEDY
| WHISPER_SAMPLING_BEAM_SEARCH.

(** [struct whisper_context_params]: the field the binding assigns, and the
    engine's remaining fields. *)
Record whisper_context_params {CX : Type} : Type := {
  use_gpu : bool;
  context_other : CX
}.
Arguments whisper_context_params : clear implicits.

(** [struct whisper_full_params]: the strategy the default constructor
    records, the fields the binding assigns, and the engine's remaining
    fields. *)
Record whisper_full_params {FX : Type} : Type := {
  strategy : whisper_sampling_strategy;
  n_threads : Z;
  max_tokens : Z;
  speed_up : bool;
  single_segment : bool;
  print_special : bool;
  print_progress : bool;
  print_realtime : bool;
  print_timestamps : bool;
  language : string;
  suppress_blank : bool;
  suppress_nst : bool;
  full_other : FX
}.
Arguments whisper_full_params : clear implicits.

(** Pointers: [None] is [NULL].  A [struct whisper_context*] is the address
    of a context the engine owns; a [char*] of the binding is the address of
    a [malloc] block. *)
Abbreviation WhisperContextRef := (option N).

(** The entry points of the engine the binding calls.  [S] is the engine's
    state, [F] the type of a sample.  The two segment queries read the state
    the last decode left. *)
Record whisper_api {S F CX FX : Type} : Type := {
  whisper_context_default_params : whisper_context_params CX;
  whisper_init_from_file_with_params :
    string -> whisper_context_params CX -> S -> WhisperContextRef * S;
  whisper_free : N -> S -> S;
  whisper_full_default_params : whisper_sampling_strategy -> whisper_full_params FX;
  whisper_full : N -> whisper_full_params FX -> list F -> Z -> S -> Z * S;
  whisper_full_n_segments : N -> S -> Z;
  whisper_full_get_segment_text : N -> Z -> S -> option string
}.
Arguments whisper_api : clear implicits.

(** ** The world *)

(** What the binding did, in order. *)
Inductive event {F CX FX : Type} : Type :=
| Ev_init_from_file (path : string) (cparams : whisper_context_params CX)
| Ev_whisper_free (ctx : N)
| Ev_whisper_full (ctx : N) (params : whisper_full_params FX)
                  (samples : list F) (n_samples : Z)
| Ev_n_segments (ctx : N)
| Ev_segment_text (ctx : N) (i : Z)
| Ev_stderr (line : string)
| Ev_malloc (size : Z) (res : option N)
| Ev_free (p : N).
Arguments event : clear implicits.

Record world {S F CX FX : Type} : Type := World {
  engine : S;
  heap : gmap N block;
  (** the outcomes of the coming allocation requests: a request is served
      when the head is [true], refused when it is [false] or missing *)
  allocs : list bool;
  trace : list (event F CX FX)
}.
Arguments world : clear implicits.
Arguments World {S F CX FX}.

(** The result of a computation: a value, or undefined behaviour. *)
Inductive outcome (A : Type) : Type :=
| Ret (a : A)
| UB.
Arguments Ret {A}.
Arguments UB {A}.

Section Binding.

Context {S F CX FX : Type}.
Variable api : whisper_api S F CX FX.

Abbreviation W := (world S F CX FX).
Abbreviation M A := (W -> outcome A * W).

Definition ret {A} (a : A) : M A := fun w => (Ret a, w).

Definition bind {A B} (m : M A) (k : A -> M B) : M B := fun w =>
  match m w with
  | (Ret a, w') => k a w'
  | (UB, w') => (UB, w')
  end.

Notation "x <- m ;; k" := (bind m (fun x => k))
  (at level 100, m at next level, right associativity).
Notation "m ;;; k" := (bind m (fun _ => k))
  (at level 100, right associativity).

Definition emit (e : event F CX FX) : M unit := fun w =>
  (Ret tt, World (engine w) (heap w) (allocs w) (trace w ++ [e])).

(** *** libc *)

Definition fprintf_stderr (line : string) : M unit := emit (Ev_stderr line).

(** [malloc]: a served request yields a block of indeterminate bytes at an
    address no live block has. *)
Definition malloc (size : Z) : M (option N) := fun w =>
  match allocs w with
  | true :: rest =>
      let p := fresh (dom (heap w)) in
      (Ret (Some p),
       World (engine w) (<[p := replicate (Z.to_nat size) Undef]> (heap w)) rest
             (trace w ++ [Ev_malloc size (Some p)]))
  | _ =>
      (Ret None,
       World (engine w) (heap w) (tail (allocs w)) (trace w ++ [Ev_malloc size None]))
  end.

Definition free (p : N) : M unit := fun w =>
  match heap w !! p with
  | Some _ =>
      (Ret tt, World (engine w) (delete p (heap w)) (allocs w) (trace w ++ [Ev_free p]))
  | None => (UB, w)
  end.

(** A block updated in place; undefined when the update is refused. *)
Definition update_block (p : N) (f : block -> option block) : M unit := fun w =>
  match heap w !! p with
  | Some b =>
      match f b with
      | Some b' => (Ret tt, World (engine w) (<[p := b']> (heap w)) (allocs w) (trace w))
      | None => (UB, w)
      end
  | None => (UB, w)
  end.

Definition store_char (p : N) (i : nat) (c : ascii) : M unit :=
  update_block p (fun b => store b i (Byte c)).

Definition strcat (dest : N) (src : string) : M unit :=
  update_block dest (fun b => strcat_block b src).

(** *** calls into the engine *)

Definition call_init_from_file (path : string) (cparams : whisper_context_params CX)
  : M WhisperContextRef := fun w =>
  let (ctx, s) := whisper_init_from_file_with_params api path cparams (engine w) in
  (Ret ctx, World s (heap w) (allocs w) (trace w ++ [Ev_init_from_file path cparams])).

Definition call_whisper_free (ctx : N) : M unit := fun w =>
  (Ret tt, World (whisper_free api ctx (engine w)) (heap w) (allocs w)
                 (trace w ++ [Ev_whisper_free ctx])).

Definition call_whisper_full (ctx : N) (params : whisper_full_params FX)
    (samples : list F) (n_samples : Z) : M Z := fun w =>
  let (status, s) := whisper_full api ctx params samples n_samples (engine w) in
  (Ret status, World s (heap w) (allocs w)
                     (trace w ++ [Ev_whisper_full ctx params samples n_samples])).

Definition call_n_segments (ctx : N) : M Z := fun w =>
  (Ret (whisper_full_n_segments api ctx (engine w)),
   World (engine w) (heap w) (allocs w) (trace w ++ [Ev_n_segments ctx])).

Definition call_segment_text (ctx : N) (i : Z) : M (option string) := fun w =>
  (Ret (whisper_full_get_segment_text api ctx i (engine w)),
   World (engine w) (heap w) (allocs w) (trace w ++ [Ev_segment_text ctx i])).

(** [for (int i = 0; i < n; i++) acc = body(i, acc);]: the body runs for
    [i = 0 .. n-1], not at all when [n <= 0].  The increment cannot wrap,
    since [i < n] and [n] is an [int] whenever the body runs. *)
Fixpoint for_from {A} (count : nat) (i : Z) (body : Z -> A -> M A) (acc : A) : M A :=
  match count with
  | O => ret acc
  | Datatypes.S count' => acc' <- body i acc ;; for_from count' (i + 1) body acc'
  end.

Definition for_int {A} (n : Z) (body : Z -> A -> M A) (acc : A) : M A :=
  for_from (Z.to_nat n) 0 body acc.

(** *** WhisperKit.c *)

Definition whisper_kit_init (model_path : string) : M WhisperContextRef :=
  let cparams := whisper_context_default_params api in
  let cparams := {| use_gpu := true; context_other := context_other cparams |} in
  ctx <- call_init_from_file model_path cparams ;;
  match ctx with
  | None =>
      fprintf_stderr ("whisper_kit: failed to load model from " +:+ model_path +:+ LF) ;;;
      ret None
  | Some c => ret (Some c)
  end.

Definition whisper_kit_free (ctx : WhisperContextRef) : M unit :=
  match ctx with
  | Some c => call_whisper_free c
  | None => ret tt
  end.

(** The parameters of every decode: the engine's defaults for greedy
    sampling with the assignments of lines 35-45. *)
Definition transcribe_params : whisper_full_params FX :=
  let params := whisper_full_default_params api WHISPER_SAMPLING_GREEDY in
  {| strategy := strategy params;
     print_progress := false;
     print_special := false;
     print_realtime := false;
     print_timestamps := false;
     single_segment := true;
     max_tokens := 0;
     language := "en";
     n_threads := 4;
     speed_up := false;
     suppress_blank := true;
     suppress_nst := true;
     full_other := full_other params |}.

(** The first loop: [total_len += strlen(text)] for each text that is not
    [NULL]. *)
Definition add_segment_length (wctx : N) (i : Z) (total_len : Z) : M Z :=
  text <- call_segment_text wctx i ;;
  match text with
  | Some s => ret (size_add total_len (strlen s))
  | None => ret total_len
  end.

(** The second loop: [strcat(result_text, text)] for each text that is not
    [NULL]. *)
Definition append_segment (wctx : N) (result_text : N) (i : Z) (_ : unit) : M unit :=
  text <- call_segment_text wctx i ;;
  match text with
  | Some s => strcat result_text s
  | None => ret tt
  end.

Definition whisper_kit_transcribe (ctx : WhisperContextRef)
    (samples : option (list F)) (n_samples : Z) : M (option N) :=
  match ctx, samples with
  | Some wctx, Some buf =>
      if (n_samples <=? 0)%Z then ret None else
      result <- call_whisper_full wctx transcribe_params buf n_samples ;;
      if negb (result =? 0)%Z then
        fprintf_stderr ("whisper_kit: transcription failed with error "
                        +:+ fmt_d result +:+ LF) ;;;
        ret None
      else
      n_segments <- call_n_segments wctx ;;
      if (n_segments =? 0)%Z then
        empty <- malloc 1 ;;
        match empty with
        | Some p => store_char p 0 NUL
        | None => ret tt
        end ;;;
        ret empty
      else
      total_len <- for_int n_segments (add_segment_length wctx) 0 ;;
      result_text <- malloc (size_add total_len 1) ;;
      match result_text with
      | None => ret None
      | Some p =>
          store_char p 0 NUL ;;;
          for_int n_segments (append_segment wctx p) tt ;;;
          ret (Some p)
      end
  | _, _ => ret None
  end.

Definition whisper_kit_free_string (str : option N) : M unit :=
  match str with
  | Some p => free p
  | None => ret tt
  end.

(** [GGML_USE_METAL] is defined or not when the binding is compiled. *)
Definition whisper_kit_metal_available (GGML_USE_METAL : bool) : M bool :=
  if GGML_USE_METAL then ret true else ret false.

Definition whisper_kit_version : M string := ret "1.0.0".

End Binding.

(** ** What a decode left in the engine *)

(** The values the loop variable takes: [count] of them from [i] on. *)
Fixpoint indices (count : nat) (i : Z) : list Z :=
  match count with
  | O => []
  | Datatypes.S count' => i :: indices count' (i + 1)
  end.

(** The answers of the segment text query for [count] segments from index
    [i] on, and for the segments [0 .. n-1], in index order; [None] where the
    query answers [NULL]. *)
Definition texts_from {S F CX FX : Type} (api : whisper_api S F CX FX)
    (wctx : N) (s : S) (count : nat) (i : Z) : list (option string) :=
  map (fun k => whisper_full_get_segment_text api wctx k s) (indices count i).

Definition segment_texts {S F CX FX : Type} (api : whisper_api S F CX FX)
    (wctx : N) (n : Z) (s : S) : list (option string) :=
  texts_from api wctx s (Z.to_nat n) 0.

(** The texts one after the other, nothing in between. *)
Fixpoint concat_texts (texts : list (option string)) : string :=
  match texts with
  | [] => ""
  | Some s :: texts' => s +:+ concat_texts texts'
  | None :: texts' => concat_texts texts'
  end.

(** The sum of the lengths of the texts, as a mathematical integer. *)
Fixpoint texts_length (texts : list (option string)) : Z :=
  match texts with
  | [] => 0
  | Some s :: texts' => strlen s + texts_length texts'
  | None :: texts' => texts_length texts'
  end.

(** Every text that is there is a C string. *)
Definition c_strings (texts : list (option string)) : Prop :=
  Forall (fun t => match t with Some s => c_string s | None => True end) texts.

(** An event that is a decode carries the parameters [params]. *)
Definition decode_with {F CX FX : Type} (params : whisper_full_params FX)
    (e : event F CX FX) : Prop :=
  match e with
  | Ev_whisper_full _ p _ _ => p = params
  | _ => True
  end.

(** A computation that, from every world, only adds events satisfying [P]
    to the trace, also when it ends in undefined behaviour. *)
Definition emits {S F CX FX A : Type} (P : event F CX FX -> Prop)
    (m : world S F CX FX -> outcome A * world S F CX FX) : Prop :=
  forall w, exists l, trace (snd (m w)) = trace w ++ l /\ Forall P l.

(** The request for the GPU follows the build: a load that asks for the GPU
    happens only in a build that reports Metal. *)
Definition gpu_requested_only_if_compiled_in {S F CX FX : Type}
    (api : whisper_api S F CX FX) (GGML_USE_METAL : bool)
    (model_path : string) (w : world S F CX FX) : Prop :=
  forall cparams,
    In (Ev_init_from_file model_path cparams)
       (trace (snd (whisper_kit_init api model_path w))) ->
    use_gpu cparams = true ->
    fst (whisper_kit_metal_available GGML_USE_METAL w) = Ret true.

(** ** A scripted engine

    An engine whose state is the status the next decode reports and the
    segment texts it leaves; it loads one model file.  Its defaults differ
    from what the binding assigns wherever they can. *)

Definition demo_state : Type := Z * list (option string).

(** Samples as exact rationals. *)
Abbreviation sample := QArith_base.Q.

Definition demo_api : whisper_api demo_state sample unit unit := {|
  whisper_context_default_params := {| use_gpu := false; context_other := tt |};
  whisper_init_from_file_with_params := fun path _ s =>
    (if String.eqb path "ggml-base.en.bin" then Some 1%N else None, s);
  whisper_free := fun _ s => s;
  whisper_full_default_params := fun st =>
    {| strategy := st; n_threads := 2; max_tokens := 32; speed_up := true;
       single_segment := false; print_special := true; print_progress := true;
       print_realtime := true; print_timestamps := true; language := "auto";
       suppress_blank := false; suppress_nst := false; full_other := tt |};
  whisper_full := fun _ _ _ _ s => (fst s, s);
  whisper_full_n_segments := fun _ s => Z.of_nat (length (snd s));
  whisper_full_get_segment_text := fun _ i s =>
    if (i <? 0)%Z then None else mjoin (snd s !! Z.to_nat i)
|}.

Definition demo_world (st : demo_state) (al : list bool)
  : world demo_state sample unit unit :=
  World st ∅ al [].

Definition demo_samples : list sample :=
  [QArith_base.Qmake 0 1; QArith_base.Qmake 1 4; QArith_base.Qmake (-1) 2].

(** Worlds for the scripted engine: a decode that leaves three segments,
    the second without text; one that leaves two segments; silence, with the
    allocation served and with it refused; and a decode that fails. *)
Definition demo_speech : world demo_state sample unit unit :=
  demo_world (0, [Some " Hello"; None; Some ", world."]) [true].

Definition demo_two_segments : world demo_state sample unit unit :=
  demo_world (0, [None; Some " one"; Some " two"]) [true; false].

Definition demo_silence : world demo_state sample unit unit :=
  demo_world (0, []) [true].

Definition demo_silence_no_memory : world demo_state sample unit unit :=
  demo_world (0, []) [false].

Definition demo_failure : world demo_state sample unit unit :=
  demo_world (-7, [Some "stale"]) [true].

(** ** Calling sequences *)

(** What a transcription on the handle [wctx] may add to the trace once it
    has decoded: the two segment queries on that handle, a line on [stderr]
    and an allocation request. *)
Definition after_decode {F CX FX : Type} (wctx : N) (e : event F CX FX) : Prop :=
  match e with
  | Ev_n_segments c => c = wctx
  | Ev_segment_text c _ => c = wctx
  | Ev_stderr _ => True
  | Ev_malloc _ _ => True
  | _ => False
  end.

(** The calling sequence [WhisperKit.h] prescribes, as a caller runs it
    once: load the model, transcribe one buffer, release the transcript with
    [whisper_kit_free_string], release the handle with [whisper_kit_free].
    The caller passes on whatever it was given, [NULL] included. *)
Definition session {S F CX FX : Type} (api : whisper_api S F CX FX)
    (model_path : string) (samples : option (list F)) (n_samples : Z)
  : world S F CX FX -> outcome unit * world S F CX FX :=
  bind (whisper_kit_init api model_path) (fun ctx =>
  bind (whisper_kit_transcribe api ctx samples n_samples) (fun str =>
  bind (whisper_kit_free_string str) (fun _ =>
  whisper_kit_free api ctx))).

(** The scripted engine with a segment count query that answers -1. *)
Definition negative_count_api : whisper_api demo_state sample unit unit := {|
  whisper_context_default_params := whisper_context_default_params demo_api;
  whisper_init_from_file_with_params := whisper_init_from_file_with_params demo_api;
  whisper_free := whisper_free demo_api;
  whisper_full_default_params := whisper_full_default_params demo_api;
  whisper_full := whisper_full demo_api;
  whisper_full_n_segments := fun _ _ => -1;
  whisper_full_get_segment_text := whisper_full_get_segment_text demo_api
|}.

(** A world in which the allocation is refused after a decode that leaves
    segments. *)
Definition demo_speech_no_memory : world demo_state sample unit unit :=
  demo_world (0, [Some " Hello"; None; Some ", world."]) [false; true].

(** A world in which two allocations in a row are served. *)
Definition demo_two_calls : world demo_state sample unit unit :=
  demo_world (0, [Some " again"]) [true; true].

(** ** C strings in blocks *)

Lemma string_app_cons (c : ascii) (s t : string) : String c s +:+ t = String c (s +:+ t).
Proof. reflexivity. Qed.

Lemma string_app_nil_l (t : string) : "" +:+ t = t.
Proof. reflexivity. Qed.

Lemma string_app_nil_r (s : string) : s +:+ "" = s.
Proof. induction s as [|c s IH]; [done | by rewrite string_app_cons, IH]. Qed.

Lemma string_app_assoc (s1 s2 s3 : string) : (s1 +:+ s2) +:+ s3 = s1 +:+ s2 +:+ s3.
Proof. induction s1 as [|c s1 IH]; [done | by rewrite !string_app_cons, IH]. Qed.

Lemma string_length_app (s1 s2 : string) :
  String.length (s1 +:+ s2) = (String.length s1 + String.length s2)%nat.
Proof. induction s1 as [|c s1 IH]; [done | rewrite string_app_cons; simpl; by rewrite IH]. Qed.

Lemma strlen_nonneg (s : string) : 0 <= strlen s.
Proof. unfold strlen. lia. Qed.

Lemma bytes_of_app (s1 s2 : string) : bytes_of (s1 +:+ s2) = bytes_of s1 ++ bytes_of s2.
Proof. induction s1 as [|c s1 IH]; [done | rewrite string_app_cons; simpl; by rewrite IH]. Qed.

Lemma length_bytes_of (s : string) : length (bytes_of s) = String.length s.
Proof. induction s as [|c s IH]; simpl; congruence. Qed.

Lemma c_string_app (s1 s2 : string) : c_string s1 -> c_string s2 -> c_string (s1 +:+ s2).
Proof.
  induction s1 as [|c s1 IH]; [done |].
  rewrite string_app_cons. simpl. intros [Hc H1] H2. auto.
Qed.

Lemma find_nul_bytes_of (s : string) (tl : block) :
  c_string s -> find_nul (bytes_of s ++ Byte NUL :: tl) = Some (String.length s).
Proof.
  induction s as [|c s IH]; simpl; [done |].
  intros [Hc Hs]. destruct (decide (c = NUL)); [done |]. by rewrite IH.
Qed.

Lemma string_at_bytes_of (s : string) (tl : block) :
  c_string s -> string_at (bytes_of s ++ Byte NUL :: tl) = Some s.
Proof.
  induction s as [|c s IH]; simpl; [done |].
  intros [Hc Hs]. destruct (decide (c = NUL)); [done |]. by rewrite IH.
Qed.

Lemma store_middle (pre : block) (x v : memval) (tl : block) :
  store (pre ++ x :: tl) (length pre) v = Some (pre ++ v :: tl).
Proof.
  unfold store. rewrite decide_True by (rewrite length_app; simpl; lia).
  f_equal. replace (length pre) with (length pre + 0)%nat by lia.
  by rewrite insert_app_r.
Qed.

(** A store at or past the end of a block is refused. *)
Lemma store_outside (b : block) (i : nat) (v : memval) :
  (length b <= i)%nat -> store b i v = None.
Proof. intros H. unfold store. by rewrite decide_False by lia. Qed.

(** [strcat] into a block without room for the text and its terminator, or
    into a block that was never initialised, is undefined. *)
Example strcat_without_room : strcat_block (bytes_of "ab" ++ [Byte NUL]) "c" = None.
Proof. reflexivity. Qed.

Example strcat_on_indeterminate_bytes : strcat_block [Undef; Undef] "a" = None.
Proof. reflexivity. Qed.

Example strcat_with_room :
  strcat_block (bytes_of "ab" ++ [Byte NUL; Undef; Undef]) "cd" = Some (bytes_of "abcd" ++ [Byte NUL]).
Proof. reflexivity. Qed.

Lemma store_string_fits (s : string) : forall (pre mid tl : block),
  length mid = Datatypes.S (String.length s) ->
  store_string (pre ++ mid ++ tl) (length pre) s = Some (pre ++ bytes_of s ++ Byte NUL :: tl).
Proof.
  induction s as [|c s IH]; intros pre mid tl Hlen; simpl in *.
  - destruct mid as [|x [|y mid]]; try discriminate. simpl. apply store_middle.
  - destruct mid as [|x mid]; try discriminate. simpl. rewrite store_middle.
    replace (pre ++ Byte c :: mid ++ tl) with ((pre ++ [Byte c]) ++ mid ++ tl)
      by (by rewrite <- app_assoc).
    replace (Datatypes.S (length pre)) with (length (pre ++ [Byte c]))
      by (rewrite length_app; simpl; lia).
    rewrite IH by (simpl in Hlen; lia). by rewrite <- app_assoc.
Qed.

(** [strcat] where there is room: the text lands behind what the block
    holds, the terminator behind it, and the rest of the block stays. *)
Lemma strcat_block_fits (acc s : string) (mid tl : block) :
  c_string acc ->
  length mid = String.length s ->
  strcat_block (bytes_of acc ++ Byte NUL :: mid ++ tl) s
  = Some (bytes_of (acc +:+ s) ++ Byte NUL :: tl).
Proof.
  intros Hacc Hlen. unfold strcat_block. rewrite find_nul_bytes_of by done.
  rewrite <- (length_bytes_of acc).
  change (Byte NUL :: mid ++ tl) with ((Byte NUL :: mid) ++ tl).
  rewrite store_string_fits by (simpl; lia).
  by rewrite bytes_of_app, <- app_assoc.
Qed.

(** ** Lengths and sums *)

Lemma texts_length_nonneg (texts : list (option string)) : 0 <= texts_length texts.
Proof.
  induction texts as [|[s|] texts IH]; simpl; [lia | | done].
  pose proof (strlen_nonneg s). lia.
Qed.

Lemma texts_length_concat (texts : list (option string)) :
  texts_length texts = strlen (concat_texts texts).
Proof.
  unfold strlen. induction texts as [|[s|] texts IH]; simpl; [done | | done].
  rewrite string_length_app, IH. unfold strlen. lia.
Qed.

Lemma c_string_concat (texts : list (option string)) :
  c_strings texts -> c_string (concat_texts texts).
Proof.
  induction 1 as [|[s|] texts Hs _ IH]; simpl; [done | | done].
  by apply c_string_app.
Qed.

Lemma size_add_small (a b : Z) : 0 <= a -> 0 <= b -> a + b < SIZE_MOD -> size_add a b = a + b.
Proof. intros Ha Hb Hlt. unfold size_add. apply Z.mod_small. lia. Qed.

Section Runs.

Context {S F CX FX : Type}.
Variable api : whisper_api S F CX FX.

Implicit Types (w : world S F CX FX) (wctx p : N) (texts : list (option string)).

(** ** Running a computation *)

Lemma bind_ret {A B} (m : world S F CX FX -> outcome A * world S F CX FX)
    (k : A -> world S F CX FX -> outcome B * world S F CX FX) w a w' :
  m w = (Ret a, w') -> bind m k w = k a w'.
Proof. intros H. unfold bind. by rewrite H. Qed.

Lemma world_eta w : World (engine w) (heap w) (allocs w) (trace w) = w.
Proof. by destruct w. Qed.

(** The first loop adds up the lengths of the texts that are not [NULL],
    asking the engine once per index. *)
Lemma total_len_loop wctx (count : nat) : forall (i total : Z) w,
  0 <= total ->
  total + texts_length (texts_from api wctx (engine w) count i) < SIZE_MOD ->
  for_from count i (add_segment_length api wctx) total w
  = (Ret (total + texts_length (texts_from api wctx (engine w) count i)),
     World (engine w) (heap w) (allocs w)
           (trace w ++ map (Ev_segment_text wctx) (indices count i))).
Proof.
  induction count as [|count IH]; intros i total w Htotal Hfit; simpl in *.
  - unfold ret. by rewrite Z.add_0_r, app_nil_r, world_eta.
  - unfold bind at 1, add_segment_length, bind at 1, call_segment_text, ret.
    pose proof (texts_length_nonneg (texts_from api wctx (engine w) count (i + 1))) as Hrest.
    fold (texts_from api wctx (engine w) count (i + 1)) in Hfit |- *.
    destruct (whisper_full_get_segment_text api wctx i (engine w)) as [s|]; simpl in *.
    + pose proof (strlen_nonneg s) as Hs.
      rewrite size_add_small by lia.
      rewrite IH by (simpl; lia). simpl.
      by rewrite <- app_assoc, Z.add_assoc.
    + rewrite IH by (simpl; lia). simpl. by rewrite <- app_assoc.
Qed.

(** The second loop appends the texts that are not [NULL] behind what the
    block holds, provided the block has room for all of them. *)
Lemma copy_loop wctx p (count : nat) : forall (i : Z) (acc : string) (mid tl : block) w,
  c_string acc ->
  c_strings (texts_from api wctx (engine w) count i) ->
  heap w !! p = Some (bytes_of acc ++ Byte NUL :: mid ++ tl) ->
  length mid = String.length (concat_texts (texts_from api wctx (engine w) count i)) ->
  for_from count i (append_segment api wctx p) tt w
  = (Ret tt,
     World (engine w)
           (<[p := bytes_of (acc +:+ concat_texts (texts_from api wctx (engine w) count i))
                   ++ Byte NUL :: tl]> (heap w))
           (allocs w)
           (trace w ++ map (Ev_segment_text wctx) (indices count i))).
Proof.
  induction count as [|count IH]; intros i acc mid tl w Hacc Htexts Hblock Hlen; simpl in *.
  - destruct mid; [|done]. simpl in Hblock.
    unfold ret. rewrite string_app_nil_r, app_nil_r, insert_id by done.
    by rewrite world_eta.
  - unfold bind at 1, append_segment, bind at 1, call_segment_text, ret.
    fold (texts_from api wctx (engine w) count (i + 1)) in Htexts, Hlen |- *.
    apply Forall_cons in Htexts as [Hs Htexts].
    destruct (whisper_full_get_segment_text api wctx i (engine w)) as [s|]; simpl in *.
    + rewrite string_length_app in Hlen.
      unfold strcat, update_block; simpl. rewrite Hblock.
      rewrite <- (take_drop (String.length s) mid), <- app_assoc.
      rewrite strcat_block_fits by (done || rewrite length_take; lia).
      erewrite IH; simpl.
      * by rewrite insert_insert_eq, <- app_assoc, string_app_assoc.
      * by apply c_string_app.
      * done.
      * by rewrite lookup_insert_eq.
      * rewrite length_drop. lia.
    + erewrite IH by done. simpl. by rewrite <- app_assoc.
Qed.

(** ** A decode that succeeds with segments *)

(** The run of [whisper_kit_transcribe] on valid arguments when the decode
    reports status 0 and a segment count other than 0, the texts are C
    strings whose total length with a terminator fits [size_t], and the
    allocation is served: the value returned and the world left. *)
Lemma transcribe_run w wctx (buf : list F) (n_samples : Z) (s' : S) (rest : list bool) :
  0 < n_samples ->
  whisper_full api wctx (transcribe_params api) buf n_samples (engine w) = (0, s') ->
  whisper_full_n_segments api wctx s' <> 0 ->
  c_strings (segment_texts api wctx (whisper_full_n_segments api wctx s') s') ->
  texts_length (segment_texts api wctx (whisper_full_n_segments api wctx s') s') + 1
    < SIZE_MOD ->
  allocs w = true :: rest ->
  whisper_kit_transcribe api (Some wctx) (Some buf) n_samples w
  = (Ret (Some (fresh (dom (heap w)))),
     World s'
       (<[fresh (dom (heap w)) :=
            bytes_of (concat_texts
                        (segment_texts api wctx (whisper_full_n_segments api wctx s') s'))
            ++ [Byte NUL]]> (heap w))
       rest
       (trace w
        ++ [Ev_whisper_full wctx (transcribe_params api) buf n_samples;
            Ev_n_segments wctx]
        ++ map (Ev_segment_text wctx)
               (indices (Z.to_nat (whisper_full_n_segments api wctx s')) 0)
        ++ [Ev_malloc
              (texts_length
                 (segment_texts api wctx (whisper_full_n_segments api wctx s') s') + 1)
              (Some (fresh (dom (heap w))))]
        ++ map (Ev_segment_text wctx)
               (indices (Z.to_nat (whisper_full_n_segments api wctx s')) 0))).
Proof.
  intros Hn Hfull Hseg Hstr Hfit Halloc.
  set (n := whisper_full_n_segments api wctx s') in *.
  set (texts := segment_texts api wctx n s') in *.
  set (p := fresh (dom (heap w))).
  pose proof (texts_length_nonneg texts) as Hnonneg.
  unfold whisper_kit_transcribe.
  destruct (Z.leb_spec n_samples 0) as [|_]; [lia |].
  erewrite bind_ret by (unfold call_whisper_full; rewrite Hfull; reflexivity).
  change (negb (0 =? 0)) with false. cbv iota.
  erewrite bind_ret by reflexivity. cbn [engine]. fold n.
  destruct (Z.eqb_spec n 0) as [|_]; [done |].
  erewrite bind_ret by (unfold for_int; apply total_len_loop; simpl; [lia | fold (segment_texts api wctx n s'); fold texts; lia]).
  simpl. fold (segment_texts api wctx n s'). fold texts.
  rewrite Z.add_0_l, size_add_small by lia.
  erewrite bind_ret by (unfold malloc; simpl; rewrite Halloc; reflexivity).
  fold p. cbv iota.
  replace (Z.to_nat (texts_length texts + 1))
    with (Datatypes.S (Z.to_nat (texts_length texts))) by lia.
  erewrite bind_ret
    by (unfold store_char, update_block; simpl; rewrite lookup_insert_eq; reflexivity).
  erewrite bind_ret.
  2:{ unfold for_int.
      apply (copy_loop wctx p (Z.to_nat n) 0 "" (replicate (Z.to_nat (texts_length texts)) Undef) []).
      - done.
      - done.
      - simpl. by rewrite lookup_insert_eq, app_nil_r.
      - simpl. fold (segment_texts api wctx n s'). fold texts.
        rewrite length_replicate, texts_length_concat. unfold strlen. lia. }
  unfold ret. simpl. fold (segment_texts api wctx n s'). fold texts.
  rewrite !insert_insert_eq, string_app_nil_l.
  repeat rewrite <- app_assoc. reflexivity.
Qed.

(** ** What a computation adds to the trace *)

Section Emits.

Variable P : event F CX FX -> Prop.

Lemma emits_ret {A} (a : A) : emits P (ret (S:=S) a).
Proof. intros w. exists []. by rewrite app_nil_r. Qed.

Lemma emits_bind {A B} (m : world S F CX FX -> outcome A * world S F CX FX)
    (k : A -> world S F CX FX -> outcome B * world S F CX FX) :
  emits P m -> (forall a, emits P (k a)) -> emits P (bind m k).
Proof.
  intros Hm Hk w. unfold bind. destruct (Hm w) as (l1 & E1 & H1).
  destruct (m w) as [[a|] w1]; simpl in *.
  - destruct (Hk a w1) as (l2 & E2 & H2). exists (l1 ++ l2).
    rewrite E2, E1, app_assoc. split; [done | by apply Forall_app].
  - by exists l1.
Qed.

Lemma emits_emit (e : event F CX FX) : P e -> emits P (emit (S:=S) e).
Proof. intros He w. exists [e]. split; [done | by constructor]. Qed.

Lemma emits_malloc (size : Z) :
  (forall res, P (Ev_malloc size res)) -> emits P (malloc (S:=S) size).
Proof.
  intros He w. unfold malloc. destruct (allocs w) as [|[] rest]; simpl;
    eexists [_]; (split; [done | by constructor]).
Qed.

Lemma emits_update_block p (f : block -> option block) :
  emits P (update_block (S:=S) p f).
Proof.
  intros w. exists []. rewrite app_nil_r. unfold update_block.
  destruct (heap w !! p) as [b|]; [destruct (f b) |]; done.
Qed.

Lemma emits_call_whisper_full wctx params (buf : list F) (n : Z) :
  P (Ev_whisper_full wctx params buf n) -> emits P (call_whisper_full api wctx params buf n).
Proof.
  intros He w. unfold call_whisper_full. destruct (whisper_full _ _ _ _ _ _).
  eexists [_]. split; [done | by constructor].
Qed.

Lemma emits_call_n_segments wctx :
  P (Ev_n_segments wctx) -> emits P (call_n_segments api wctx).
Proof. intros He w. eexists [_]. split; [done | by constructor]. Qed.

Lemma emits_call_segment_text wctx (i : Z) :
  P (Ev_segment_text wctx i) -> emits P (call_segment_text api wctx i).
Proof. intros He w. eexists [_]. split; [done | by constructor]. Qed.

Lemma emits_for_from {A} (body : Z -> A -> world S F CX FX -> outcome A * world S F CX FX)
    (count : nat) :
  (forall i acc, emits P (body i acc)) -> forall i acc, emits P (for_from count i body acc).
Proof.
  intros Hbody. induction count as [|count IH]; intros i acc; simpl.
  - apply emits_ret.
  - apply emits_bind; [apply Hbody | intros acc'; apply IH].
Qed.

End Emits.

Create HintDb emits.
#[local] Hint Resolve emits_ret emits_emit emits_malloc emits_update_block
  emits_call_whisper_full emits_call_n_segments emits_call_segment_text : emits.
#[local] Hint Extern 1 (decode_with _ _) => (exact I || reflexivity) : emits.

(** One step of a proof that a computation only emits events in [P]. *)
Ltac emits_step :=
  match goal with
  | |- emits _ (bind _ _) => apply emits_bind; [| intros ?]
  | |- emits _ (for_int _ _ _) => apply emits_for_from; intros ? ?
  | |- emits _ (if ?c then _ else _) => destruct c
  | |- emits _ (match ?x with _ => _ end) => destruct x
  | |- emits _ _ => solve [eauto with emits]
  end.

(** Whatever its arguments, a transcription decodes with the parameters
    [transcribe_params] only. *)
Lemma transcribe_emits ctx (samples : option (list F)) (n_samples : Z) :
  emits (decode_with (transcribe_params api))
        (whisper_kit_transcribe api ctx samples n_samples).
Proof.
  unfold whisper_kit_transcribe, add_segment_length, append_segment,
    fprintf_stderr, store_char, strcat.
  repeat emits_step.
Qed.

(** On valid arguments the decode comes first. *)
Lemma transcribe_decodes_first w wctx (buf : list F) (n_samples : Z) :
  0 < n_samples ->
  exists l',
    trace (snd (whisper_kit_transcribe api (Some wctx) (Some buf) n_samples w))
    = trace w ++ Ev_whisper_full wctx (transcribe_params api) buf n_samples :: l'.
Proof.
  intros Hn. unfold whisper_kit_transcribe.
  destruct (Z.leb_spec n_samples 0) as [|_]; [lia |].
  match goal with
  | |- context [bind (call_whisper_full _ _ _ _ _) ?k] =>
      assert (forall status, emits (fun _ => True) (k status)) as Hk
  end.
  { intros status.
    unfold add_segment_length, append_segment, fprintf_stderr, store_char, strcat.
    repeat emits_step. }
  unfold bind at 1, call_whisper_full.
  destruct (whisper_full api wctx (transcribe_params api) buf n_samples (engine w))
    as [status s1].
  match goal with
  | |- context [snd (_ ?w1)] => destruct (Hk status w1) as (l2 & Hl2 & _)
  end.
  exists l2. rewrite Hl2. cbn [trace]. by rewrite <- app_assoc.
Qed.

(** ** [whisper_kit_transcribe] *)

(** C1.  A successful transcription (a handle and a sample buffer that are
    not [NULL], a positive count, decode status 0, at least one segment,
    the allocation served; the texts being C strings that fit the address
    space together) returns a fresh block that holds exactly the segment
    texts in index order, nothing between them, behind one another and
    terminated.  The trace shows how: one pass over the segments for the
    total length, then one [malloc] of that length plus one, then one pass
    over the segments in the same order to copy them. *)
Theorem transcribe_concatenates_segments
    w wctx (buf : list F) (n_samples : Z) (s' : S) (rest : list bool) :
  0 < n_samples ->
  whisper_full api wctx (transcribe_params api) buf n_samples (engine w) = (0, s') ->
  1 <= whisper_full_n_segments api wctx s' ->
  c_strings (segment_texts api wctx (whisper_full_n_segments api wctx s') s') ->
  texts_length (segment_texts api wctx (whisper_full_n_segments api wctx s') s') + 1
    < SIZE_MOD ->
  allocs w = true :: rest ->
  exists (p : N) (w' : world S F CX FX) (b : block),
    whisper_kit_transcribe api (Some wctx) (Some buf) n_samples w = (Ret (Some p), w')
    /\ heap w !! p = None
    /\ heap w' !! p = Some b
    /\ string_at b
       = Some (concat_texts
                 (segment_texts api wctx (whisper_full_n_segments api wctx s') s'))
    /\ Z.of_nat (length b)
       = texts_length (segment_texts api wctx (whisper_full_n_segments api wctx s') s') + 1
    /\ trace w'
       = trace w
         ++ [Ev_whisper_full wctx (transcribe_params api) buf n_samples;
             Ev_n_segments wctx]
         ++ map (Ev_segment_text wctx)
                (indices (Z.to_nat (whisper_full_n_segments api wctx s')) 0)
         ++ [Ev_malloc
               (texts_length
                  (segment_texts api wctx (whisper_full_n_segments api wctx s') s') + 1)
               (Some p)]
         ++ map (Ev_segment_text wctx)
                (indices (Z.to_nat (whisper_full_n_segments api wctx s')) 0).
Proof.
  intros Hn Hfull Hseg Hstr Hfit Halloc.
  eexists _, _, _. split; [apply (transcribe_run w wctx buf n_samples s' rest); (done || lia) |].
  cbn [heap trace]. rewrite lookup_insert_eq.
  split; [apply not_elem_of_dom, is_fresh |].
  split; [done |].
  split; [by apply string_at_bytes_of, c_string_concat |].
  split; [| done].
  rewrite length_app, length_bytes_of, texts_length_concat. unfold strlen. simpl. lia.
Qed.

(** C2, as amended.  On valid arguments, when the decode reports status 0
    and zero segments, the transcription asks for one byte: if the
    allocation is served it returns the fresh block, which holds the empty
    string, and if it is not it returns [NULL].  The segment texts are not
    read on either path. *)
Theorem transcribe_zero_segments w wctx (buf : list F) (n_samples : Z) (s' : S) :
  0 < n_samples ->
  whisper_full api wctx (transcribe_params api) buf n_samples (engine w) = (0, s') ->
  whisper_full_n_segments api wctx s' = 0 ->
  whisper_kit_transcribe api (Some wctx) (Some buf) n_samples w
  = match allocs w with
    | true :: rest =>
        (Ret (Some (fresh (dom (heap w)))),
         World s' (<[fresh (dom (heap w)) := bytes_of "" ++ [Byte NUL]]> (heap w)) rest
               (trace w ++ [Ev_whisper_full wctx (transcribe_params api) buf n_samples;
                            Ev_n_segments wctx;
                            Ev_malloc 1 (Some (fresh (dom (heap w))))]))
    | _ =>
        (Ret None,
         World s' (heap w) (tail (allocs w))
               (trace w ++ [Ev_whisper_full wctx (transcribe_params api) buf n_samples;
                            Ev_n_segments wctx;
                            Ev_malloc 1 None]))
    end.
Proof.
  intros Hn Hfull Hseg. unfold whisper_kit_transcribe.
  destruct (Z.leb_spec n_samples 0) as [|_]; [lia |].
  erewrite bind_ret by (unfold call_whisper_full; rewrite Hfull; reflexivity).
  change (negb (0 =? 0)) with false. cbv iota.
  erewrite bind_ret by reflexivity. cbn [engine]. rewrite Hseg.
  change (0 =? 0) with true. cbv iota.
  unfold bind at 1, malloc. cbn [allocs heap trace engine].
  destruct (allocs w) as [|[] rest]; cbn [tail]; unfold bind, ret.
  - by rewrite <- !app_assoc.
  - unfold store_char, update_block. cbn [heap]. rewrite lookup_insert_eq. simpl.
    by rewrite insert_insert_eq, <- !app_assoc.
  - by rewrite <- !app_assoc.
Qed.

(** C3.  With a [NULL] handle, a [NULL] sample buffer or a count that is
    not positive, the transcription returns [NULL] and leaves the world as it
    was: nothing is added to the trace (no entry point of the engine is
    invoked, nothing is written or allocated), and the engine's state and
    the heap are the same. *)
Theorem transcribe_rejects_invalid_arguments
    w ctx (samples : option (list F)) (n_samples : Z) :
  ctx = None \/ samples = None \/ n_samples <= 0 ->
  whisper_kit_transcribe api ctx samples n_samples w = (Ret None, w).
Proof.
  intros Hbad. unfold whisper_kit_transcribe.
  destruct ctx as [wctx|]; [| done].
  destruct samples as [buf|]; [| done].
  destruct (Z.leb_spec n_samples 0) as [|Hpos]; [done |].
  destruct Hbad as [|[|]]; (done || lia).
Qed.

(** C4.  On valid arguments, when the decode reports a status other than 0,
    the transcription writes the line with that status to [stderr] and
    returns [NULL]; the decode and the line are all it adds to the trace, so
    neither segment query is made, and the heap is untouched. *)
Theorem transcribe_decode_failure
    w wctx (buf : list F) (n_samples status : Z) (s' : S) :
  0 < n_samples ->
  whisper_full api wctx (transcribe_params api) buf n_samples (engine w) = (status, s') ->
  status <> 0 ->
  whisper_kit_transcribe api (Some wctx) (Some buf) n_samples w
  = (Ret None,
     World s' (heap w) (allocs w)
           (trace w ++ [Ev_whisper_full wctx (transcribe_params api) buf n_samples;
                        Ev_stderr ("whisper_kit: transcription failed with error "
                                   +:+ fmt_d status +:+ LF)])).
Proof.
  intros Hn Hfull Hstatus. unfold whisper_kit_transcribe.
  destruct (Z.leb_spec n_samples 0) as [|_]; [lia |].
  erewrite bind_ret by (unfold call_whisper_full; rewrite Hfull; reflexivity).
  destruct (Z.eqb_spec status 0) as [|_]; [done |]. cbn [negb]. cbv iota.
  unfold bind, fprintf_stderr, emit, ret. cbn [engine heap allocs trace].
  by rewrite <- app_assoc.
Qed.

(** C5.  The parameters of a decode do not depend on the caller's
    arguments: every decode a transcription makes, whatever the handle, the
    buffer and the count, carries [transcribe_params], and on valid arguments
    the decode is the first thing the transcription does.  For an engine
    whose default constructor records the strategy it is asked for, these
    parameters are: greedy sampling, single segment mode, no token limit,
    language "en", 4 threads, blank and non-speech tokens suppressed, and
    every printing flag off. *)
Theorem transcribe_fixed_parameters :
  (forall st, strategy (whisper_full_default_params api st) = st) ->
  (strategy (transcribe_params api) = WHISPER_SAMPLING_GREEDY
   /\ single_segment (transcribe_params api) = true
   /\ max_tokens (transcribe_params api) = 0
   /\ language (transcribe_params api) = "en"
   /\ n_threads (transcribe_params api) = 4
   /\ suppress_blank (transcribe_params api) = true
   /\ suppress_nst (transcribe_params api) = true
   /\ print_progress (transcribe_params api) = false
   /\ print_special (transcribe_params api) = false
   /\ print_realtime (transcribe_params api) = false
   /\ print_timestamps (transcribe_params api) = false)
  /\ (forall w ctx (samples : option (list F)) (n_samples : Z),
        exists l,
          trace (snd (whisper_kit_transcribe api ctx samples n_samples w)) = trace w ++ l
          /\ Forall (decode_with (transcribe_params api)) l
          /\ forall wctx buf,
               ctx = Some wctx -> samples = Some buf -> 0 < n_samples ->
               exists l', l = Ev_whisper_full wctx (transcribe_params api) buf n_samples :: l').
Proof.
  intros Hdefault. split.
  - unfold transcribe_params; simpl. by rewrite Hdefault.
  - intros w ctx samples n_samples.
    destruct (transcribe_emits ctx samples n_samples w) as (l & Hl & Hdec).
    exists l. split; [done |]. split; [done |].
    intros wctx buf -> -> Hn.
    destruct (transcribe_decodes_first w wctx buf n_samples Hn) as (l' & Hl').
    exists l'. rewrite Hl in Hl'. by apply app_inv_head in Hl'.
Qed.

(** C10.  In a successful transcription with segments, no store leaves the
    block (the run ends in a value, not in undefined behaviour); the block
    was allocated with the precomputed total length plus one; it ends up
    holding the texts followed by the terminator, so the characters written
    are as many as the precomputed total.  A segment whose text query
    answers [NULL] is passed over by both loops: the first leaves the total
    as it is and the second leaves the heap as it is. *)
Theorem transcribe_fills_buffer_exactly
    w wctx (buf : list F) (n_samples : Z) (s' : S) (rest : list bool) :
  0 < n_samples ->
  whisper_full api wctx (transcribe_params api) buf n_samples (engine w) = (0, s') ->
  1 <= whisper_full_n_segments api wctx s' ->
  c_strings (segment_texts api wctx (whisper_full_n_segments api wctx s') s') ->
  texts_length (segment_texts api wctx (whisper_full_n_segments api wctx s') s') + 1
    < SIZE_MOD ->
  allocs w = true :: rest ->
  exists (p : N) (w' : world S F CX FX),
    whisper_kit_transcribe api (Some wctx) (Some buf) n_samples w = (Ret (Some p), w')
    /\ In (Ev_malloc
             (texts_length
                (segment_texts api wctx (whisper_full_n_segments api wctx s') s') + 1)
             (Some p))
          (trace w')
    /\ heap w' !! p
       = Some (bytes_of (concat_texts
                           (segment_texts api wctx (whisper_full_n_segments api wctx s') s'))
               ++ [Byte NUL])
    /\ Z.of_nat (length (bytes_of (concat_texts
                   (segment_texts api wctx (whisper_full_n_segments api wctx s') s'))))
       = texts_length (segment_texts api wctx (whisper_full_n_segments api wctx s') s')
    /\ forall (i total : Z) (w0 : world S F CX FX),
         whisper_full_get_segment_text api wctx i (engine w0) = None ->
         fst (add_segment_length api wctx i total w0) = Ret total
         /\ fst (append_segment api wctx p i tt w0) = Ret tt
         /\ heap (snd (append_segment api wctx p i tt w0)) = heap w0.
Proof.
  intros Hn Hfull Hseg Hstr Hfit Halloc.
  eexists _, _. split; [apply (transcribe_run w wctx buf n_samples s' rest); (done || lia) |].
  cbn [heap trace]. split; [| split; [| split]].
  - rewrite !in_app_iff. right. right. right. left. by left.
  - by rewrite lookup_insert_eq.
  - rewrite length_bytes_of, texts_length_concat. done.
  - intros i total w0 Hnull.
    unfold add_segment_length, append_segment, bind, call_segment_text.
    by rewrite Hnull.
Qed.

(** ** The other entry points *)

(** C6, as amended.  Whatever the build, that is whether [GGML_USE_METAL]
    is defined or not and so whatever [whisper_kit_metal_available] reports,
    the first thing an initialisation does is to call the engine's load
    routine with the path it was given and the engine's default
    configuration in which [use_gpu] is set to [true]. *)
Theorem init_always_requests_gpu (GGML_USE_METAL : bool) (model_path : string) w :
  whisper_kit_metal_available GGML_USE_METAL w = (Ret GGML_USE_METAL, w)
  /\ exists l,
       trace (snd (whisper_kit_init api model_path w))
       = trace w
         ++ Ev_init_from_file model_path
              {| use_gpu := true;
                 context_other := context_other (whisper_context_default_params api) |}
            :: l.
Proof.
  split; [by destruct GGML_USE_METAL |].
  unfold whisper_kit_init, bind, call_init_from_file.
  destruct (whisper_init_from_file_with_params api _ _ _) as [[c|] s1]; simpl.
  - by exists [].
  - eexists [_]. by rewrite <- app_assoc.
Qed.

(** C7.  An initialisation calls the load routine once.  When the routine
    answers [NULL], the initialisation then writes the line naming the path
    to [stderr] and returns [NULL]; when it answers a context, the
    initialisation returns that context and writes nothing. *)
Theorem init_load_result (model_path : string) w :
  whisper_kit_init api model_path w
  = match whisper_init_from_file_with_params api model_path
            {| use_gpu := true;
               context_other := context_other (whisper_context_default_params api) |}
            (engine w) with
    | (None, s') =>
        (Ret None,
         World s' (heap w) (allocs w)
               (trace w
                ++ [Ev_init_from_file model_path
                      {| use_gpu := true;
                         context_other :=
                           context_other (whisper_context_default_params api) |};
                    Ev_stderr ("whisper_kit: failed to load model from "
                               +:+ model_path +:+ LF)]))
    | (Some c, s') =>
        (Ret (Some c),
         World s' (heap w) (allocs w)
               (trace w
                ++ [Ev_init_from_file model_path
                      {| use_gpu := true;
                         context_other :=
                           context_other (whisper_context_default_params api) |}]))
    end.
Proof.
  unfold whisper_kit_init, bind, call_init_from_file.
  destruct (whisper_init_from_file_with_params api _ _ _) as [[c|] s1]; simpl; [done |].
  by rewrite <- app_assoc.
Qed.

(** C8.  Releasing a [NULL] handle and releasing a [NULL] string both
    return normally and leave the world as it was: the engine's free routine
    and the deallocator are not called. *)
Theorem free_null_is_noop w :
  whisper_kit_free api None w = (Ret tt, w)
  /\ whisper_kit_free_string None w = (Ret tt, w).
Proof. by split. Qed.

(** C9.  The capability queries read and change nothing: in every world
    the version is the literal "1.0.0", which no entry point of the engine
    contributes to, and the Metal query answers the compile-time flag; so two
    calls, in whatever worlds, return the same. *)
Theorem capabilities_are_pure (GGML_USE_METAL : bool) w w' :
  whisper_kit_version w = (Ret "1.0.0", w)
  /\ whisper_kit_metal_available GGML_USE_METAL w = (Ret GGML_USE_METAL, w)
  /\ fst (whisper_kit_version w) = fst (whisper_kit_version w')
  /\ fst (whisper_kit_metal_available GGML_USE_METAL w)
     = fst (whisper_kit_metal_available GGML_USE_METAL w').
Proof. by destruct GGML_USE_METAL. Qed.

End Runs.

(** ** On the scripted engine *)

Lemma transcribe_concatenates_segments_witness :
  exists (p : N) (w' : world demo_state sample unit unit) (b : block),
    whisper_kit_transcribe demo_api (Some 1%N) (Some demo_samples) 3 demo_speech
    = (Ret (Some p), w')
    /\ heap demo_speech !! p = None
    /\ heap w' !! p = Some b
    /\ string_at b = Some " Hello, world."
    /\ Z.of_nat (length b) = 15
    /\ trace w'
       = [Ev_whisper_full 1%N (transcribe_params demo_api) demo_samples 3;
          Ev_n_segments 1%N;
          Ev_segment_text 1%N 0; Ev_segment_text 1%N 1; Ev_segment_text 1%N 2;
          Ev_malloc 15 (Some p);
          Ev_segment_text 1%N 0; Ev_segment_text 1%N 1; Ev_segment_text 1%N 2].
Proof.
  apply (transcribe_concatenates_segments demo_api demo_speech 1%N demo_samples 3
           (0, [Some " Hello"; None; Some ", world."]) []).
  - lia.
  - reflexivity.
  - vm_compute. discriminate.
  - vm_compute. repeat constructor; discriminate.
  - vm_compute. reflexivity.
  - reflexivity.
Defined.

(** The empty transcript is [NULL] when the allocation of its one byte is
    refused: a valid handle, a decode with status 0 and zero segments, and
    [NULL] returned. *)
Lemma empty_transcript_null_when_allocation_fails :
  whisper_full demo_api 1%N (transcribe_params demo_api) demo_samples 3
    (engine demo_silence_no_memory) = (0, engine demo_silence_no_memory)
  /\ whisper_full_n_segments demo_api 1%N (engine demo_silence_no_memory) = 0
  /\ fst (whisper_kit_transcribe demo_api (Some 1%N) (Some demo_samples) 3
            demo_silence_no_memory) = Ret None.
Proof. by vm_compute. Qed.

Lemma transcribe_zero_segments_witness :
  exists (p : N) (w' : world demo_state sample unit unit),
    whisper_kit_transcribe demo_api (Some 1%N) (Some demo_samples) 3 demo_silence
    = (Ret (Some p), w')
    /\ heap w' !! p = Some [Byte NUL]
    /\ string_at [Byte NUL] = Some "".
Proof.
  eexists _, _. split; [| split].
  - apply (transcribe_zero_segments demo_api demo_silence 1%N demo_samples 3 (0, []));
      [lia | reflexivity | reflexivity].
  - cbn [heap]. apply lookup_insert_eq.
  - reflexivity.
Defined.

Lemma transcribe_rejects_invalid_arguments_witness :
  whisper_kit_transcribe demo_api (Some 1%N) (Some demo_samples) 0 demo_speech
  = (Ret None, demo_speech).
Proof.
  apply (transcribe_rejects_invalid_arguments demo_api demo_speech (Some 1%N)
           (Some demo_samples) 0).
  right. right. lia.
Defined.

Lemma transcribe_decode_failure_witness :
  whisper_kit_transcribe demo_api (Some 1%N) (Some demo_samples) 3 demo_failure
  = (Ret None,
     World (-7, [Some "stale"]) ∅ [true]
           [Ev_whisper_full 1%N (transcribe_params demo_api) demo_samples 3;
            Ev_stderr ("whisper_kit: transcription failed with error -7" +:+ LF)]).
Proof.
  apply (transcribe_decode_failure demo_api demo_failure 1%N demo_samples 3 (-7)
           (-7, [Some "stale"])).
  - lia.
  - reflexivity.
  - lia.
Defined.

Lemma transcribe_fixed_parameters_witness :
  (forall st, strategy (whisper_full_default_params demo_api st) = st)
  /\ strategy (transcribe_params demo_api) = WHISPER_SAMPLING_GREEDY
  /\ exists l,
       trace (snd (whisper_kit_transcribe demo_api (Some 1%N) (Some demo_samples) 3
                     demo_speech))
       = Ev_whisper_full 1%N (transcribe_params demo_api) demo_samples 3 :: l.
Proof.
  assert (forall st, strategy (whisper_full_default_params demo_api st) = st) as Hdefault
    by reflexivity.
  destruct (transcribe_fixed_parameters demo_api Hdefault) as [[Hgreedy _] Hcalls].
  split; [exact Hdefault | split; [exact Hgreedy |]].
  destruct (Hcalls demo_speech (Some 1%N) (Some demo_samples) 3) as (l & Hl & _ & Hfirst).
  destruct (Hfirst 1%N demo_samples eq_refl eq_refl eq_refl) as (l' & ->).
  exists l'. exact Hl.
Defined.

(** The request for the GPU does not follow the build: in a build without
    [GGML_USE_METAL] the load still asks for the GPU. *)
Lemma init_requests_gpu_without_metal :
  ~ gpu_requested_only_if_compiled_in demo_api false "ggml-base.en.bin" demo_silence.
Proof.
  intros Hclaim.
  specialize (Hclaim {| use_gpu := true; context_other := tt |}).
  assert (Ret false = Ret true) as Habsurd; [| discriminate Habsurd].
  apply Hclaim; [by left | reflexivity].
Qed.

Lemma transcribe_fills_buffer_exactly_witness :
  exists (p : N) (w' : world demo_state sample unit unit),
    whisper_kit_transcribe demo_api (Some 1%N) (Some demo_samples) 3 demo_two_segments
    = (Ret (Some p), w')
    /\ In (Ev_malloc 9 (Some p)) (trace w')
    /\ heap w' !! p = Some (bytes_of " one two" ++ [Byte NUL])
    /\ Z.of_nat (length (bytes_of " one two")) = 8
    /\ forall (i total : Z) (w0 : world demo_state sample unit unit),
         whisper_full_get_segment_text demo_api 1%N i (engine w0) = None ->
         fst (add_segment_length demo_api 1%N i total w0) = Ret total
         /\ fst (append_segment demo_api 1%N p i tt w0) = Ret tt
         /\ heap (snd (append_segment demo_api 1%N p i tt w0)) = heap w0.
Proof.
  apply (transcribe_fills_buffer_exactly demo_api demo_two_segments 1%N demo_samples 3
           (0, [None; Some " one"; Some " two"]) [false]).
  - lia.
  - reflexivity.
  - vm_compute. discriminate.
  - vm_compute. repeat constructor; discriminate.
  - vm_compute. reflexivity.
  - reflexivity.
Defined.

(** ** The heap across a transcription *)

Section Heap.

Context {S F CX FX : Type}.
Variable api : whisper_api S F CX FX.

Implicit Types (w : world S F CX FX) (wctx p : N).

(** The first loop, whatever the texts: it ends, with some total, and only
    the trace has grown. *)
Lemma total_len_loop_any wctx (count : nat) : forall (i total : Z) w,
  exists total',
    for_from count i (add_segment_length api wctx) total w
    = (Ret total',
       World (engine w) (heap w) (allocs w)
             (trace w ++ map (Ev_segment_text wctx) (indices count i))).
Proof.
  induction count as [|count IH]; intros i total w; simpl.
  - exists total. unfold ret. by rewrite app_nil_r, world_eta.
  - assert (exists t1,
              add_segment_length api wctx i total w
              = (Ret t1, World (engine w) (heap w) (allocs w)
                               (trace w ++ [Ev_segment_text wctx i]))) as (t1 & Hbody).
    { unfold add_segment_length, bind, call_segment_text, ret.
      destruct (whisper_full_get_segment_text api wctx i (engine w)); by eexists. }
    erewrite bind_ret by exact Hbody.
    destruct (IH (i + 1) t1 (World (engine w) (heap w) (allocs w)
                                   (trace w ++ [Ev_segment_text wctx i])))
      as (total' & ->).
    exists total'. cbn [engine heap allocs trace]. by rewrite <- app_assoc.
Qed.

(** The second loop, whatever the texts: however it ends, the heap differs
    from the one it started with at most in the block it appends to. *)
Lemma copy_loop_any wctx p (count : nat) : forall (i : Z) w (b : block),
  heap w !! p = Some b ->
  exists (o : outcome unit) (b' : block) (t' : list (event F CX FX)),
    for_from count i (append_segment api wctx p) tt w
    = (o, World (engine w) (<[p := b']> (heap w)) (allocs w) t').
Proof.
  induction count as [|count IH]; intros i w b Hb; simpl.
  - exists (Ret tt), b, (trace w). unfold ret. by rewrite insert_id, world_eta.
  - assert (exists (o1 : outcome unit) (b1 : block),
              append_segment api wctx p i tt w
              = (o1, World (engine w) (<[p := b1]> (heap w)) (allocs w)
                           (trace w ++ [Ev_segment_text wctx i]))) as (o1 & b1 & Hbody).
    { unfold append_segment, bind, call_segment_text, ret, strcat, update_block.
      destruct (whisper_full_get_segment_text api wctx i (engine w)) as [s|];
        cbn [heap engine allocs trace].
      - rewrite Hb. destruct (strcat_block b s) as [b1|].
        + by exists (Ret tt), b1.
        + exists UB, b. by rewrite insert_id.
      - exists (Ret tt), b. by rewrite insert_id. }
    unfold bind. rewrite Hbody. destruct o1 as [[]|].
    + destruct (IH (i + 1)
                  (World (engine w) (<[p := b1]> (heap w)) (allocs w)
                         (trace w ++ [Ev_segment_text wctx i])) b1)
        as (o & b' & t' & ->); [cbn [heap]; by rewrite lookup_insert_eq |].
      exists o, b', t'. cbn [heap engine allocs]. by rewrite insert_insert_eq.
    + by eexists UB, b1, _.
Qed.

(** What a transcription does to the heap, whatever its arguments and
    whatever the engine answers: nothing when it returns [NULL]; otherwise
    the heap has one block more, at an address that was free. *)
Lemma transcribe_heap ctx (samples : option (list F)) (n_samples : Z) w :
  match whisper_kit_transcribe api ctx samples n_samples w with
  | (Ret None, w') => heap w' = heap w
  | (Ret (Some p), w') =>
      p = fresh (dom (heap w)) /\ exists b, heap w' = <[p := b]> (heap w)
  | (UB, w') => exists b, heap w' = <[fresh (dom (heap w)) := b]> (heap w)
  end.
Proof.
  unfold whisper_kit_transcribe.
  destruct ctx as [wctx|]; [| done]. destruct samples as [buf|]; [| done].
  destruct (n_samples <=? 0); [done |].
  unfold bind at 1, call_whisper_full.
  destruct (whisper_full api wctx (transcribe_params api) buf n_samples (engine w))
    as [status s1].
  destruct (negb (status =? 0)); [done |].
  unfold bind at 1, call_n_segments. cbn [engine heap allocs trace].
  destruct (whisper_full_n_segments api wctx s1 =? 0).
  - unfold bind at 1, malloc. cbn [engine heap allocs trace].
    destruct (allocs w) as [|[] rest]; [done | | done].
    unfold bind, store_char, update_block, ret. cbn [heap].
    rewrite lookup_insert_eq. simpl. split; [done |].
    eexists. by rewrite insert_insert_eq.
  - unfold bind at 1, for_int.
    match goal with
    | |- context [for_from ?c 0 _ 0 ?w1] =>
        destruct (total_len_loop_any wctx c 0 0 w1) as (total & ->)
    end.
    unfold bind at 1, malloc. cbn [engine heap allocs trace].
    destruct (allocs w) as [|[] rest]; [done | | done].
    set (p := fresh (dom (heap w))).
    unfold bind at 1, store_char, update_block. cbn [heap engine allocs trace].
    rewrite lookup_insert_eq.
    destruct (store _ 0 (Byte NUL)) as [b1|]; [| by eexists].
    rewrite insert_insert_eq. unfold bind at 1, for_int.
    match goal with
    | |- context [for_from ?c 0 _ tt ?w1] =>
        destruct (copy_loop_any wctx p c 0 w1 b1) as (o & b' & t' & ->);
          [cbn [heap]; by rewrite lookup_insert_eq |]
    end.
    cbn [heap]. rewrite insert_insert_eq.
    destruct o as [[]|]; unfold ret; cbn [heap]; [split; [done |] |]; by eexists.
Qed.

(** X1.  A transcription that returns [NULL], for whichever reason
    (arguments refused, decode failed, allocation refused), leaves the heap
    exactly as it found it: nothing it allocated stays behind. *)
Theorem transcribe_null_leaves_heap ctx (samples : option (list F)) (n_samples : Z) w :
  fst (whisper_kit_transcribe api ctx samples n_samples w) = Ret None ->
  heap (snd (whisper_kit_transcribe api ctx samples n_samples w)) = heap w.
Proof.
  intros Hnull. pose proof (transcribe_heap ctx samples n_samples w) as Hheap.
  destruct (whisper_kit_transcribe api ctx samples n_samples w) as [[[p|]|] w'];
    simpl in *; (done || discriminate).
Qed.

(** X2.  A transcription that returns a string returns the address of a
    block that was not live before the call and is live after it, and leaves
    every other block as it was: transcripts returned earlier are not
    touched. *)
Theorem transcribe_result_is_fresh
    ctx (samples : option (list F)) (n_samples : Z) w p (w' : world S F CX FX) :
  whisper_kit_transcribe api ctx samples n_samples w = (Ret (Some p), w') ->
  heap w !! p = None
  /\ is_Some (heap w' !! p)
  /\ forall q, q <> p -> heap w' !! q = heap w !! q.
Proof.
  intros Hrun. pose proof (transcribe_heap ctx samples n_samples w) as Hheap.
  rewrite Hrun in Hheap. destruct Hheap as (-> & b & ->).
  split; [apply not_elem_of_dom, is_fresh |].
  split; [by rewrite lookup_insert_eq |].
  intros q Hq. by rewrite lookup_insert_ne.
Qed.

(** X3.  Releasing the string a transcription returned with
    [whisper_kit_free_string] is defined, calls [free] once on it, and gives
    back the heap as it was before the transcription. *)
Theorem transcribe_then_free_string
    ctx (samples : option (list F)) (n_samples : Z) w p (w' : world S F CX FX) :
  whisper_kit_transcribe api ctx samples n_samples w = (Ret (Some p), w') ->
  whisper_kit_free_string (Some p) w'
  = (Ret tt, World (engine w') (heap w) (allocs w') (trace w' ++ [Ev_free p])).
Proof.
  intros Hrun. pose proof (transcribe_heap ctx samples n_samples w) as Hheap.
  rewrite Hrun in Hheap. destruct Hheap as (-> & b & Hheap).
  unfold whisper_kit_free_string, free. rewrite Hheap, lookup_insert_eq.
  rewrite delete_insert_id by apply not_elem_of_dom, is_fresh. done.
Qed.

(** X4.  [whisper_kit_free_string] keeps no record of what it released:
    releasing the string of a transcription a second time is undefined
    behaviour. *)
Theorem free_string_twice_undefined
    ctx (samples : option (list F)) (n_samples : Z) w p (w' : world S F CX FX) :
  whisper_kit_transcribe api ctx samples n_samples w = (Ret (Some p), w') ->
  fst (bind (whisper_kit_free_string (Some p))
            (fun _ => whisper_kit_free_string (Some p)) w') = UB.
Proof.
  intros Hrun. pose proof (transcribe_heap ctx samples n_samples w) as Hheap.
  rewrite Hrun in Hheap. destruct Hheap as (-> & b & Hheap).
  unfold bind, whisper_kit_free_string, free. rewrite Hheap, lookup_insert_eq.
  cbn [heap]. by rewrite lookup_delete_eq.
Qed.

(** X5.  Two transcriptions in a row, the first string not yet released,
    return different addresses, and the second leaves the first string as
    it was. *)
Theorem successive_transcripts_distinct
    ctx1 (samples1 : option (list F)) (n1 : Z) ctx2 (samples2 : option (list F)) (n2 : Z)
    w p1 (w1 : world S F CX FX) p2 (w2 : world S F CX FX) :
  whisper_kit_transcribe api ctx1 samples1 n1 w = (Ret (Some p1), w1) ->
  whisper_kit_transcribe api ctx2 samples2 n2 w1 = (Ret (Some p2), w2) ->
  p1 <> p2 /\ heap w2 !! p1 = heap w1 !! p1.
Proof.
  intros Hrun1 Hrun2.
  pose proof (transcribe_heap ctx1 samples1 n1 w) as Hheap1.
  pose proof (transcribe_heap ctx2 samples2 n2 w1) as Hheap2.
  rewrite Hrun1 in Hheap1. rewrite Hrun2 in Hheap2.
  destruct Hheap1 as (_ & b1 & Hheap1). destruct Hheap2 as (-> & b2 & Hheap2).
  assert (p1 <> fresh (dom (heap w1))) as Hne.
  { intros ->. apply (is_fresh (dom (heap w1))), elem_of_dom.
    rewrite Hheap1 at 2. by rewrite lookup_insert_eq. }
  split; [done |]. rewrite Hheap2. by rewrite lookup_insert_ne.
Qed.

End Heap.

(** ** Edges of a transcription *)

Section Edges.

Context {S F CX FX : Type}.
Variable api : whisper_api S F CX FX.

Implicit Types (w : world S F CX FX) (wctx p : N).

(** X6.  A segment count below zero is served like an empty transcript:
    on valid arguments and decode status 0, neither loop runs, no segment
    text is asked for, one byte is requested, and the result is the empty
    string, or [NULL] when the request is refused. *)
Theorem transcribe_negative_segment_count
    w wctx (buf : list F) (n_samples : Z) (s' : S) :
  0 < n_samples ->
  whisper_full api wctx (transcribe_params api) buf n_samples (engine w) = (0, s') ->
  whisper_full_n_segments api wctx s' < 0 ->
  whisper_kit_transcribe api (Some wctx) (Some buf) n_samples w
  = match allocs w with
    | true :: rest =>
        (Ret (Some (fresh (dom (heap w)))),
         World s' (<[fresh (dom (heap w)) := bytes_of "" ++ [Byte NUL]]> (heap w)) rest
               (trace w ++ [Ev_whisper_full wctx (transcribe_params api) buf n_samples;
                            Ev_n_segments wctx;
                            Ev_malloc 1 (Some (fresh (dom (heap w))))]))
    | _ =>
        (Ret None,
         World s' (heap w) (tail (allocs w))
               (trace w ++ [Ev_whisper_full wctx (transcribe_params api) buf n_samples;
                            Ev_n_segments wctx;
                            Ev_malloc 1 None]))
    end.
Proof.
  intros Hn Hfull Hseg. unfold whisper_kit_transcribe.
  destruct (Z.leb_spec n_samples 0) as [|_]; [lia |].
  erewrite bind_ret by (unfold call_whisper_full; rewrite Hfull; reflexivity).
  change (negb (0 =? 0)) with false. cbv iota.
  erewrite bind_ret by reflexivity. cbn [engine].
  destruct (Z.eqb_spec (whisper_full_n_segments api wctx s') 0) as [|_]; [lia |].
  unfold for_int. replace (Z.to_nat (whisper_full_n_segments api wctx s')) with 0%nat by lia.
  cbn [for_from]. erewrite bind_ret by reflexivity.
  change (size_add 0 1) with 1.
  unfold bind at 1, malloc. cbn [allocs heap trace engine].
  destruct (allocs w) as [|[] rest]; cbn [tail]; unfold bind, ret.
  - by rewrite <- !app_assoc.
  - unfold store_char, update_block. cbn [heap]. rewrite lookup_insert_eq. simpl.
    by rewrite !insert_insert_eq, <- !app_assoc.
  - by rewrite <- !app_assoc.
Qed.

(** X7.  When the decode left segments and the allocation of the result
    buffer is refused, the transcription returns [NULL] after the length
    pass: the texts are not asked for a second time and the heap is as it
    was. *)
Theorem transcribe_allocation_failure
    w wctx (buf : list F) (n_samples : Z) (s' : S) :
  0 < n_samples ->
  whisper_full api wctx (transcribe_params api) buf n_samples (engine w) = (0, s') ->
  whisper_full_n_segments api wctx s' <> 0 ->
  texts_length (segment_texts api wctx (whisper_full_n_segments api wctx s') s') + 1
    < SIZE_MOD ->
  head (allocs w) <> Some true ->
  whisper_kit_transcribe api (Some wctx) (Some buf) n_samples w
  = (Ret None,
     World s' (heap w) (tail (allocs w))
       (trace w
        ++ [Ev_whisper_full wctx (transcribe_params api) buf n_samples;
            Ev_n_segments wctx]
        ++ map (Ev_segment_text wctx)
               (indices (Z.to_nat (whisper_full_n_segments api wctx s')) 0)
        ++ [Ev_malloc
              (texts_length
                 (segment_texts api wctx (whisper_full_n_segments api wctx s') s') + 1)
              None])).
Proof.
  intros Hn Hfull Hseg Hfit Halloc.
  set (n := whisper_full_n_segments api wctx s') in *.
  set (texts := segment_texts api wctx n s') in *.
  pose proof (texts_length_nonneg texts) as Hnonneg.
  unfold whisper_kit_transcribe.
  destruct (Z.leb_spec n_samples 0) as [|_]; [lia |].
  erewrite bind_ret by (unfold call_whisper_full; rewrite Hfull; reflexivity).
  change (negb (0 =? 0)) with false. cbv iota.
  erewrite bind_ret by reflexivity. cbn [engine]. fold n.
  destruct (Z.eqb_spec n 0) as [|_]; [done |].
  erewrite bind_ret
    by (unfold for_int; apply total_len_loop; simpl;
        [lia | fold (segment_texts api wctx n s'); fold texts; lia]).
  simpl. fold (segment_texts api wctx n s'). fold texts.
  rewrite Z.add_0_l, size_add_small by lia.
  unfold bind, malloc, ret. cbn [allocs heap trace engine].
  destruct (allocs w) as [|[] rest]; cbn [tail]; [| done |];
    repeat rewrite <- app_assoc; reflexivity.
Qed.

(** X8.  A transcription on a handle and a buffer that are not [NULL] is
    free of undefined behaviour whatever the count, the status of the decode
    and the outcome of the allocation, as long as the texts the decode left
    are C strings whose total length with a terminator fits [size_t]. *)
Theorem transcribe_memory_safe
    w wctx (buf : list F) (n_samples status : Z) (s' : S) :
  whisper_full api wctx (transcribe_params api) buf n_samples (engine w) = (status, s') ->
  c_strings (segment_texts api wctx (whisper_full_n_segments api wctx s') s') ->
  texts_length (segment_texts api wctx (whisper_full_n_segments api wctx s') s') + 1
    < SIZE_MOD ->
  exists r, fst (whisper_kit_transcribe api (Some wctx) (Some buf) n_samples w) = Ret r.
Proof.
  intros Hfull Hstr Hfit.
  destruct (Z.leb_spec n_samples 0) as [Hn|Hn].
  { unfold whisper_kit_transcribe. apply Z.leb_le in Hn. rewrite Hn. by eexists. }
  destruct (decide (status = 0)) as [->|Hstatus].
  - destruct (decide (whisper_full_n_segments api wctx s' = 0)) as [Hzero|Hseg].
    + unfold whisper_kit_transcribe.
      destruct (Z.leb_spec n_samples 0) as [|_]; [lia |].
      erewrite bind_ret by (unfold call_whisper_full; rewrite Hfull; reflexivity).
      change (negb (0 =? 0)) with false. cbv iota.
      erewrite bind_ret by reflexivity. cbn [engine]. rewrite Hzero.
      change (0 =? 0) with true. cbv iota.
      unfold bind at 1, malloc. cbn [allocs heap trace engine].
      destruct (allocs w) as [|[] rest]; unfold bind, ret; [by eexists | | by eexists].
      unfold store_char, update_block. cbn [heap]. rewrite lookup_insert_eq. simpl.
      by eexists.
    + destruct (decide (head (allocs w) = Some true)) as [Hserved|Hrefused].
      * destruct (allocs w) as [|[] rest] eqn:Halloc; try discriminate.
        rewrite (transcribe_run api w wctx buf n_samples s' rest) by done. by eexists.
      * unfold whisper_kit_transcribe.
        destruct (Z.leb_spec n_samples 0) as [|_]; [lia |].
        erewrite bind_ret by (unfold call_whisper_full; rewrite Hfull; reflexivity).
        change (negb (0 =? 0)) with false. cbv iota.
        erewrite bind_ret by reflexivity. cbn [engine].
        destruct (Z.eqb_spec (whisper_full_n_segments api wctx s') 0) as [|_]; [done |].
        unfold bind at 1, for_int.
        match goal with
        | |- context [for_from ?c 0 _ 0 ?w1] =>
            destruct (total_len_loop_any api wctx c 0 0 w1) as (total & ->)
        end.
        unfold bind, malloc, ret. cbn [allocs heap trace engine].
        destruct (allocs w) as [|[] rest]; [| done |]; by eexists.
  - unfold whisper_kit_transcribe.
    destruct (Z.leb_spec n_samples 0) as [|_]; [lia |].
    erewrite bind_ret by (unfold call_whisper_full; rewrite Hfull; reflexivity).
    destruct (Z.eqb_spec status 0) as [|_]; [done |]. cbn [negb]. cbv iota.
    unfold bind, fprintf_stderr, emit, ret. by eexists.
Qed.

End Edges.

(** ** Calling sequences *)

Section Sessions.

Context {S F CX FX : Type}.
Variable api : whisper_api S F CX FX.

Implicit Types (w : world S F CX FX) (wctx p : N).

Create HintDb after_decode.
#[local] Hint Resolve emits_ret emits_emit emits_malloc emits_update_block
  emits_call_n_segments emits_call_segment_text : after_decode.
#[local] Hint Extern 1 (after_decode _ _) => (exact I || reflexivity) : after_decode.

(** One step through a computation that follows the decode. *)
Ltac after_decode_step :=
  match goal with
  | |- emits _ (bind _ _) => apply emits_bind; [| intros ?]
  | |- emits _ (for_int _ _ _) => apply emits_for_from; intros ? ?
  | |- emits _ (if ?c then _ else _) => destruct c
  | |- emits _ (match ?x with _ => _ end) => destruct x
  | |- emits _ _ => solve [eauto with after_decode]
  end.

(** X9.  On valid arguments a transcription decodes exactly once, first of
    all; what it adds to the trace afterwards are segment queries on the
    handle it was given, a line on [stderr] or an allocation request.  It
    never decodes again, loads a model, or releases the handle or a
    string. *)
Theorem transcribe_decodes_once w wctx (buf : list F) (n_samples : Z) :
  0 < n_samples ->
  exists l',
    trace (snd (whisper_kit_transcribe api (Some wctx) (Some buf) n_samples w))
    = trace w ++ Ev_whisper_full wctx (transcribe_params api) buf n_samples :: l'
    /\ Forall (after_decode wctx) l'.
Proof.
  intros Hn. unfold whisper_kit_transcribe.
  destruct (Z.leb_spec n_samples 0) as [|_]; [lia |].
  match goal with
  | |- context [bind (call_whisper_full _ _ _ _ _) ?k] =>
      assert (forall status, emits (after_decode wctx) (k status)) as Hk
  end.
  { intros status.
    unfold add_segment_length, append_segment, fprintf_stderr, store_char, strcat.
    repeat after_decode_step. }
  unfold bind at 1, call_whisper_full.
  destruct (whisper_full api wctx (transcribe_params api) buf n_samples (engine w))
    as [status s1].
  match goal with
  | |- context [snd (_ ?w1)] => destruct (Hk status w1) as (l2 & Hl2 & Hafter)
  end.
  exists l2. rewrite Hl2. cbn [trace]. by rewrite <- app_assoc.
Qed.

(** X10.  When the load fails, the rest of the calling sequence does
    nothing: the [NULL] handle makes the transcription return [NULL] and
    both releases return at once.  The engine is asked to load and nothing
    else, the line naming the path is all that is written, and no memory is
    requested. *)
Theorem session_after_failed_load
    (model_path : string) (samples : option (list F)) (n_samples : Z) w (s' : S) :
  whisper_init_from_file_with_params api model_path
    {| use_gpu := true;
       context_other := context_other (whisper_context_default_params api) |}
    (engine w) = (None, s') ->
  session api model_path samples n_samples w
  = (Ret tt,
     World s' (heap w) (allocs w)
           (trace w
            ++ [Ev_init_from_file model_path
                  {| use_gpu := true;
                     context_other := context_other (whisper_context_default_params api) |};
                Ev_stderr ("whisper_kit: failed to load model from "
                           +:+ model_path +:+ LF)])).
Proof.
  intros Hload. unfold session, whisper_kit_init, bind at 1, bind at 1, call_init_from_file.
  rewrite Hload. unfold bind, fprintf_stderr, emit, ret. cbn [engine heap allocs trace].
  unfold whisper_kit_transcribe, whisper_kit_free_string, whisper_kit_free, ret.
  by rewrite <- app_assoc.
Qed.

(** X11.  A calling sequence that runs to its end leaves the heap as it
    found it, whatever the load, the decode and the allocator did in
    between: the one block a transcription allocates is the one
    [whisper_kit_free_string] releases. *)
Theorem session_leaves_heap
    (model_path : string) (samples : option (list F)) (n_samples : Z) w :
  fst (session api model_path samples n_samples w) = Ret tt ->
  heap (snd (session api model_path samples n_samples w)) = heap w.
Proof.
  assert (heap (snd (whisper_kit_init api model_path w)) = heap w) as Hinit.
  { unfold whisper_kit_init, bind, call_init_from_file.
    by destruct (whisper_init_from_file_with_params api _ _ _) as [[c|] s1]. }
  pose proof (transcribe_heap api) as Hheap.
  unfold session.
  destruct (whisper_kit_init api model_path w) as [[ctx|] w1] eqn:Einit;
    [| unfold bind; by rewrite Einit].
  cbn [snd] in Hinit. rewrite <- Hinit.
  rewrite (bind_ret _ _ _ _ _ Einit).
  specialize (Hheap ctx samples n_samples w1).
  destruct (whisper_kit_transcribe api ctx samples n_samples w1) as [[[p|]|] w2] eqn:Erun;
    [ | | unfold bind; by rewrite Erun].
  - rewrite (bind_ret _ _ _ _ _ Erun).
    destruct Hheap as (-> & b & Hheap).
    unfold bind, whisper_kit_free_string, free. rewrite Hheap, lookup_insert_eq.
    intros _. rewrite delete_insert_id by apply not_elem_of_dom, is_fresh.
    by destruct ctx.
  - rewrite (bind_ret _ _ _ _ _ Erun).
    unfold bind, whisper_kit_free_string, ret. intros _. rewrite <- Hheap.
    by destruct ctx.
Qed.

(** X12.  The calling sequence on a model that loads and a buffer that
    decodes into segments, with the allocation served: it ends normally, the
    heap is as before, and the trace is the load, the decode, the two passes
    around the allocation, then [free] on the transcript and the engine's
    release of the handle the load returned, in this order. *)
Theorem session_success
    (model_path : string) (buf : list F) (n_samples : Z) w (c : N) (s1 s2 : S)
    (rest : list bool) :
  whisper_init_from_file_with_params api model_path
    {| use_gpu := true;
       context_other := context_other (whisper_context_default_params api) |}
    (engine w) = (Some c, s1) ->
  0 < n_samples ->
  whisper_full api c (transcribe_params api) buf n_samples s1 = (0, s2) ->
  whisper_full_n_segments api c s2 <> 0 ->
  c_strings (segment_texts api c (whisper_full_n_segments api c s2) s2) ->
  texts_length (segment_texts api c (whisper_full_n_segments api c s2) s2) + 1 < SIZE_MOD ->
  allocs w = true :: rest ->
  session api model_path (Some buf) n_samples w
  = (Ret tt,
     World (whisper_free api c s2) (heap w) rest
       (trace w
        ++ [Ev_init_from_file model_path
              {| use_gpu := true;
                 context_other := context_other (whisper_context_default_params api) |};
            Ev_whisper_full c (transcribe_params api) buf n_samples;
            Ev_n_segments c]
        ++ map (Ev_segment_text c) (indices (Z.to_nat (whisper_full_n_segments api c s2)) 0)
        ++ [Ev_malloc
              (texts_length
                 (segment_texts api c (whisper_full_n_segments api c s2) s2) + 1)
              (Some (fresh (dom (heap w))))]
        ++ map (Ev_segment_text c) (indices (Z.to_nat (whisper_full_n_segments api c s2)) 0)
        ++ [Ev_free (fresh (dom (heap w))); Ev_whisper_free c])).
Proof.
  intros Hload Hn Hfull Hseg Hstr Hfit Halloc. unfold session.
  erewrite bind_ret
    by (unfold whisper_kit_init, bind, call_init_from_file; rewrite Hload; reflexivity).
  erewrite bind_ret by (by apply (transcribe_run api _ c buf n_samples s2 rest)).
  cbn [heap trace].
  unfold bind, whisper_kit_free_string, free, whisper_kit_free, call_whisper_free.
  cbn [heap engine allocs trace]. rewrite lookup_insert_eq.
  rewrite delete_insert_id by apply not_elem_of_dom, is_fresh.
  cbn [engine heap allocs trace]. repeat rewrite <- app_assoc. cbn [app]. reflexivity.
Qed.

End Sessions.

(** ** Further runs of the scripted engine *)

Lemma transcribe_null_leaves_heap_witness :
  heap (snd (whisper_kit_transcribe demo_api (Some 1%N) (Some demo_samples) 3
               demo_speech_no_memory))
  = heap demo_speech_no_memory.
Proof.
  apply (transcribe_null_leaves_heap demo_api (Some 1%N) (Some demo_samples) 3
           demo_speech_no_memory).
  vm_compute. reflexivity.
Defined.

Lemma transcribe_result_is_fresh_witness :
  heap demo_speech !! 0%N = None
  /\ is_Some (heap (snd (whisper_kit_transcribe demo_api (Some 1%N) (Some demo_samples) 3
                           demo_speech)) !! 0%N)
  /\ forall q, q <> 0%N ->
       heap (snd (whisper_kit_transcribe demo_api (Some 1%N) (Some demo_samples) 3
                    demo_speech)) !! q
       = heap demo_speech !! q.
Proof.
  apply (transcribe_result_is_fresh demo_api (Some 1%N) (Some demo_samples) 3 demo_speech).
  vm_compute. reflexivity.
Defined.

Lemma transcribe_then_free_string_witness :
  whisper_kit_free_string (Some 0%N)
    (snd (whisper_kit_transcribe demo_api (Some 1%N) (Some demo_samples) 3 demo_speech))
  = (Ret tt,
     World (0, [Some " Hello"; None; Some ", world."]) ∅ []
       (trace (snd (whisper_kit_transcribe demo_api (Some 1%N) (Some demo_samples) 3
                      demo_speech))
        ++ [Ev_free 0%N])).
Proof.
  apply (transcribe_then_free_string demo_api (Some 1%N) (Some demo_samples) 3 demo_speech).
  vm_compute. reflexivity.
Defined.

Lemma free_string_twice_undefined_witness :
  fst (bind (whisper_kit_free_string (Some 0%N))
            (fun _ => whisper_kit_free_string (Some 0%N))
            (snd (whisper_kit_transcribe demo_api (Some 1%N) (Some demo_samples) 3
                    demo_silence)))
  = UB.
Proof.
  apply (free_string_twice_undefined demo_api (Some 1%N) (Some demo_samples) 3 demo_silence).
  vm_compute. reflexivity.
Defined.

Lemma successive_transcripts_distinct_witness :
  0%N <> 1%N
  /\ heap (snd (whisper_kit_transcribe demo_api (Some 1%N) (Some demo_samples) 3
                  (snd (whisper_kit_transcribe demo_api (Some 1%N) (Some demo_samples) 3
                          demo_two_calls)))) !! 0%N
     = heap (snd (whisper_kit_transcribe demo_api (Some 1%N) (Some demo_samples) 3
                    demo_two_calls)) !! 0%N.
Proof.
  apply (successive_transcripts_distinct demo_api
           (Some 1%N) (Some demo_samples) 3 (Some 1%N) (Some demo_samples) 3
           demo_two_calls).
  - vm_compute. reflexivity.
  - vm_compute. reflexivity.
Defined.

Lemma transcribe_negative_segment_count_witness :
  whisper_kit_transcribe negative_count_api (Some 1%N) (Some demo_samples) 3 demo_speech
  = (Ret (Some 0%N),
     World (0, [Some " Hello"; None; Some ", world."]) {[ 0%N := [Byte NUL] ]} []
           [Ev_whisper_full 1%N (transcribe_params negative_count_api) demo_samples 3;
            Ev_n_segments 1%N;
            Ev_malloc 1 (Some 0%N)]).
Proof.
  apply (transcribe_negative_segment_count negative_count_api demo_speech 1%N
           demo_samples 3 (0, [Some " Hello"; None; Some ", world."])).
  - lia.
  - reflexivity.
  - vm_compute. reflexivity.
Defined.

Lemma transcribe_allocation_failure_witness :
  whisper_kit_transcribe demo_api (Some 1%N) (Some demo_samples) 3 demo_speech_no_memory
  = (Ret None,
     World (0, [Some " Hello"; None; Some ", world."]) ∅ [true]
           [Ev_whisper_full 1%N (transcribe_params demo_api) demo_samples 3;
            Ev_n_segments 1%N;
            Ev_segment_text 1%N 0; Ev_segment_text 1%N 1; Ev_segment_text 1%N 2;
            Ev_malloc 15 None]).
Proof.
  apply (transcribe_allocation_failure demo_api demo_speech_no_memory 1%N demo_samples 3
           (0, [Some " Hello"; None; Some ", world."])).
  - lia.
  - reflexivity.
  - vm_compute. discriminate.
  - vm_compute. reflexivity.
  - vm_compute. discriminate.
Defined.

Lemma transcribe_memory_safe_witness :
  exists r,
    fst (whisper_kit_transcribe demo_api (Some 1%N) (Some demo_samples) 3 demo_two_segments)
    = Ret r.
Proof.
  apply (transcribe_memory_safe demo_api demo_two_segments 1%N demo_samples 3 0
           (0, [None; Some " one"; Some " two"])).
  - reflexivity.
  - vm_compute. repeat constructor; discriminate.
  - vm_compute. reflexivity.
Defined.

Lemma transcribe_decodes_once_witness :
  exists l',
    trace (snd (whisper_kit_transcribe demo_api (Some 1%N) (Some demo_samples) 3
                  demo_failure))
    = trace demo_failure
      ++ Ev_whisper_full 1%N (transcribe_params demo_api) demo_samples 3 :: l'
    /\ Forall (after_decode 1%N) l'.
Proof.
  apply (transcribe_decodes_once demo_api demo_failure 1%N demo_samples 3). lia.
Defined.

Lemma session_after_failed_load_witness :
  session demo_api "missing.bin" (Some demo_samples) 3 demo_speech
  = (Ret tt,
     World (0, [Some " Hello"; None; Some ", world."]) ∅ [true]
           [Ev_init_from_file "missing.bin" {| use_gpu := true; context_other := tt |};
            Ev_stderr ("whisper_kit: failed to load model from missing.bin" +:+ LF)]).
Proof.
  apply (session_after_failed_load demo_api "missing.bin" (Some demo_samples) 3 demo_speech
           (0, [Some " Hello"; None; Some ", world."])).
  reflexivity.
Defined.

Lemma session_leaves_heap_witness :
  heap (snd (session demo_api "ggml-base.en.bin" (Some demo_samples) 3 demo_silence))
  = heap demo_silence.
Proof.
  apply (session_leaves_heap demo_api "ggml-base.en.bin" (Some demo_samples) 3 demo_silence).
  vm_compute. reflexivity.
Defined.

Lemma session_success_witness :
  session demo_api "ggml-base.en.bin" (Some demo_samples) 3 demo_speech
  = (Ret tt,
     World (0, [Some " Hello"; None; Some ", world."]) ∅ []
           [Ev_init_from_file "ggml-base.en.bin" {| use_gpu := true; context_other := tt |};
            Ev_whisper_full 1%N (transcribe_params demo_api) demo_samples 3;
            Ev_n_segments 1%N;
            Ev_segment_text 1%N 0; Ev_segment_text 1%N 1; Ev_segment_text 1%N 2;
            Ev_malloc 15 (Some 0%N);
            Ev_segment_text 1%N 0; Ev_segment_text 1%N 1; Ev_segment_text 1%N 2;
            Ev_free 0%N; Ev_whisper_free 1%N]).
Proof.
  apply (session_success demo_api "ggml-base.en.bin" demo_samples 3 demo_speech 1%N
           (0, [Some " Hello"; None; Some ", world."])
           (0, [Some " Hello"; None; Some ", world."]) []).
  - reflexivity.
  - lia.
  - reflexivity.
  - vm_compute. discriminate.
  - vm_compute. repeat constructor; discriminate.
  - vm_compute. reflexivity.
  - reflexivity.
Defined.
